(** * RedisService: the cache-aside accessor in front of the Redis client

    A shallow embedding of [RedisService] (the class of static async methods
    [hSet], [hGet], [hGetAll], [hDel], [jsonSet], [jsonGet], [set], [get],
    [del]), of the helpers of [common/helper/isEmpty.ts], and of the nullable
    module variable [redisClient] of [common/database/redis.ts].

    Async functions are state transformers over a [World] that holds the
    client handle, the state of the remote store, the state of the caller
    (which the fallback producer may read and change), the sequence of store
    calls and fallback invocations made so far, and the log.  The node-redis
    client is external: it is a record of methods over an arbitrary store
    state, each of which may throw. *)

From Stdlib Require Import ZArith List Ascii String Bool Lia.
From stdpp Require Import base option gmap strings pretty.
Import ListNotations.
Local Open Scope string_scope.
Local Open Scope list_scope.
Local Open Scope Z_scope.
Set Warnings "-register-all".
Set Default Proof Using "Type".

(** ** JavaScript values *)

(** The values that cross the API: [undefined], [null], booleans, numbers
    (TTLs and counters are whole numbers of seconds, so [Z]), strings, arrays
    and plain objects (field order as [Object.keys] lists it). *)
Inductive JsVal : Type :=
| JUndefined
| JNull
| JBool (b : bool)
| JNum (n : Z)
| JStr (s : string)
| JArr (items : list JsVal)
| JObj (fields : list (string * JsVal)).

(** Truthiness, as tested by [if (x)], [!x], [x ? a : b] and [x && y]. *)
Definition truthy (v : JsVal) : bool :=
  match v with
  | JUndefined | JNull => false
  | JBool b => b
  | JNum n => negb (n =? 0)
  | JStr s => negb (String.eqb s "")
  | JArr _ | JObj _ => true
  end.


(** [isDefined] of common/helper/isEmpty.ts:
    [obj !== undefined && obj !== null]. *)
Definition isDefined (obj : JsVal) : bool :=
  match obj with
  | JUndefined => false
  | JNull => false
  | _ => true
  end.

(** An optional [ttl?: number] as the value the tests see. *)
Definition js_of_ttl (ttl : option Z) : JsVal :=
  match ttl with Some n => JNum n | None => JUndefined end.

(** A [string | null] (what the client's [get] resolves to). *)
Definition js_of_nullable (r : option string) : JsVal :=
  match r with Some s => JStr s | None => JNull end.

(** A [string | undefined] (the fallback type of [get], the result of the
    client's [hGet]). *)
Definition js_of_optional (r : option string) : JsVal :=
  match r with Some s => JStr s | None => JUndefined end.

(** A [Record<string, string>] as an object value. *)
Definition js_of_record (r : list (string * string)) : JsVal :=
  JObj (map (fun kv => (fst kv, JStr (snd kv))) r).

(** ** Exceptions, completions and promises *)

Inductive JsError : Type := MkError (message : string).

(** [String(error)] inside a template literal. *)
Definition error_to_string (e : JsError) : string :=
  match e with MkError m => ("Error: " ++ m)%string end.

(** How a statement sequence ends: normally, or by a throw that an enclosing
    [try] can catch. *)
Inductive Completion (A : Type) : Type :=
| Normal (a : A)
| Abrupt (e : JsError).
Arguments Normal {A} a.
Arguments Abrupt {A} e.

(** A settled promise: what the caller of an async function observes. *)
Inductive Settled (A : Type) : Type :=
| Fulfilled (a : A)
| Rejected (e : JsError).
Arguments Fulfilled {A} a.
Arguments Rejected {A} e.

(** What one invocation of a fallback producer [() => Promise<T> | T] does:
    it yields a value (directly or through a promise that fulfils), throws
    before returning, or returns a promise that rejects. *)
Inductive FbResult (A : Type) : Type :=
| FbValue (a : A)
| FbThrows (e : JsError)
| FbRejects (e : JsError).
Arguments FbValue {A} a.
Arguments FbThrows {A} e.
Arguments FbRejects {A} e.

(** What the caller of [fallback()] gets when nothing stands in between. *)
Definition settle {A : Type} (r : FbResult A) : Settled A :=
  match r with
  | FbValue a => Fulfilled a
  | FbThrows e => Rejected e
  | FbRejects e => Rejected e
  end.

Definition fb_map {A B : Type} (f : A -> B) (r : FbResult A) : FbResult B :=
  match r with
  | FbValue a => FbValue (f a)
  | FbThrows e => FbThrows e
  | FbRejects e => FbRejects e
  end.

Definition settled_map {A B : Type} (f : A -> B) (p : Settled A) : Settled B :=
  match p with
  | Fulfilled a => Fulfilled (f a)
  | Rejected e => Rejected e
  end.

(** ** Arguments of the API *)

Inductive HashValue : Type := HStr (s : string) | HNum (n : Z).

(** [field: string | string[]] of [hDel]. *)
Inductive FieldArg : Type := OneField (f : string) | ManyFields (fs : list string).

(** Modelled from the spec: [RedisJsonGetOptions] of common/types/redis is
    not among the sources; the read options name the path to read, the whole
    document when absent.  [jsonGet] only passes them on to the client. *)
Record RedisJsonGetOptions : Type := { path : option string }.

(** [CustomRedisJsonGetOptions], as [jsonGet] destructures it. *)
Record CustomRedisJsonGetOptions : Type :=
  { json_ttl : option Z; json_resetIfNotFound : option bool }.

(** The [options] of [set] and [jsonSet]. *)
Record TtlOptions : Type := { ttl : option Z }.

(** The [customOptions] of [get]. *)
Record GetOptions : Type :=
  { get_ttl : option Z;
    resetIfNotFound : option bool;
    bypassFallbackIfNotFound : option bool }.

(** ** Observable events *)

(** One call of a method of the client, with its arguments. *)
Inductive StoreCall : Type :=
| CallGet (key : string)
| CallSet (key value : string)
| CallDel (key : string)
| CallExpire (key : string) (seconds : Z)
| CallHGet (key field : string)
| CallHSet (key : string) (value : list (string * HashValue))
| CallHDel (key : string) (field : FieldArg)
| CallHGetAll (key : string)
| CallJsonGet (key : string) (options : option RedisJsonGetOptions)
| CallJsonSet (key path : string) (value : JsVal).

(** A store call with the exception it threw, if any; or one invocation of
    the fallback producer. *)
Inductive Event : Type :=
| EvStore (call : StoreCall) (failure : option JsError)
| EvFallback.

Inductive LogEntry : Type :=
| LogWarn (message : string)
| LogError (message : string) (error : option JsError).

Definition failure_of {A : Type} (c : Completion A) : option JsError :=
  match c with Normal _ => None | Abrupt e => Some e end.

Definition is_store_failure (ev : Event) : bool :=
  match ev with EvStore _ (Some _) => true | _ => false end.

Definition is_store_event (ev : Event) : bool :=
  match ev with EvStore _ _ => true | EvFallback => false end.

Definition is_fallback_event (ev : Event) : bool :=
  match ev with EvFallback => true | EvStore _ _ => false end.

Definition is_expire_event (ev : Event) : bool :=
  match ev with EvStore (CallExpire _ _) _ => true | _ => false end.

Definition fallback_count (evs : list Event) : nat :=
  length (List.filter is_fallback_event evs).

Definition store_calls (evs : list Event) : list Event :=
  List.filter is_store_event evs.

Module RedisService.
Section Service.

(** The state of the remote store and the state of the calling code. *)
Context {Store Caller : Type}.

(** The node-redis client: every method is awaited by the service, so a
    synchronous throw and a rejected promise are the same [Abrupt]. *)
Record RedisClientType : Type :=
  { client_get : string -> Store -> Completion (option string) * Store;
    client_set : string -> string -> Store -> Completion unit * Store;
    client_del : string -> Store -> Completion unit * Store;
    client_expire : string -> Z -> Store -> Completion unit * Store;
    client_hGet : string -> string -> Store -> Completion (option string) * Store;
    client_hSet : string -> list (string * HashValue) -> Store -> Completion unit * Store;
    client_hDel : string -> FieldArg -> Store -> Completion unit * Store;
    client_hGetAll : string -> Store -> Completion (list (string * string)) * Store;
    client_json_get :
      string -> option RedisJsonGetOptions -> Store -> Completion JsVal * Store;
    client_json_set : string -> string -> JsVal -> Store -> Completion unit * Store }.

(** [export let redisClient: RedisClientType | null], with everything the
    calls can observe or change. *)
Record World : Type :=
  { redisClient : option RedisClientType;
    store : Store;
    caller : Caller;
    trace : list Event;
    logs : list LogEntry }.

(** A fallback producer: a computation of the caller, over the caller's own
    state. *)
Definition Fallback (A : Type) : Type := Caller -> FbResult A * Caller.

(** The fallback of [get] yields [string | undefined]; seen as a value. *)
Definition fallback_js (fallback : Fallback (option string)) : Fallback JsVal :=
  fun c => let '(r, c') := fallback c in (fb_map js_of_optional r, c').

(** The body of an async function, and the async function as its caller
    sees it. *)
Definition M (A : Type) : Type := World -> Completion A * World.
Definition Async (A : Type) : Type := World -> Settled A * World.

Definition ret {A : Type} (a : A) : M A := fun w => (Normal a, w).

Definition bind {A B : Type} (m : M A) (k : A -> M B) : M B :=
  fun w =>
    match m w with
    | (Normal a, w') => k a w'
    | (Abrupt e, w') => (Abrupt e, w')
    end.

(** [try { body } catch (error) { handler }] *)
Definition try_catch {A : Type} (body : M A) (handler : JsError -> M A) : M A :=
  fun w =>
    match body w with
    | (Normal a, w') => (Normal a, w')
    | (Abrupt e, w') => handler e w'
    end.

(** An async function never throws to its caller: a throw that leaves the
    body rejects the promise, and [return p] for a promise [p] hands [p]'s
    settlement on without the enclosing [try] seeing a rejection. *)
Definition async {A : Type} (body : M (Settled A)) : Async A :=
  fun w =>
    match body w with
    | (Normal p, w') => (p, w')
    | (Abrupt e, w') => (Rejected e, w')
    end.

(** [await p] *)
Definition await {A : Type} (p : Async A) : M A :=
  fun w =>
    match p w with
    | (Fulfilled a, w') => (Normal a, w')
    | (Rejected e, w') => (Abrupt e, w')
    end.

Definition logger_warn (message : string) : M unit :=
  fun w =>
    (Normal tt,
     {| redisClient := redisClient w; store := store w; caller := caller w;
        trace := trace w; logs := logs w ++ [LogWarn message] |}).

Definition logger_error (message : string) (error : option JsError) : M unit :=
  fun w =>
    (Normal tt,
     {| redisClient := redisClient w; store := store w; caller := caller w;
        trace := trace w; logs := logs w ++ [LogError message error] |}).

(** [await redisClient.method(args)]: the module variable is read at the
    call; on a null handle the property access throws a TypeError and no
    store method runs. *)
Definition on_client {A : Type} (call : StoreCall)
    (method : RedisClientType -> Store -> Completion A * Store) : M A :=
  fun w =>
    match redisClient w with
    | None => (Abrupt (MkError "TypeError: Cannot read properties of null"), w)
    | Some client =>
        let '(r, s') := method client (store w) in
        (r,
         {| redisClient := redisClient w; store := s'; caller := caller w;
            trace := trace w ++ [EvStore call (failure_of r)]; logs := logs w |})
    end.

(** One invocation [fallback()]. *)
Definition invoke {A : Type} (fallback : Fallback A) (w : World)
  : FbResult A * World :=
  let '(r, c') := fallback (caller w) in
  (r,
   {| redisClient := redisClient w; store := store w; caller := c';
      trace := trace w ++ [EvFallback]; logs := logs w |}).

(** [await fallback()]: a throw and a rejection both surface here. *)
Definition await_fallback {A : Type} (fallback : Fallback A) : M A :=
  fun w =>
    match invoke fallback w with
    | (FbValue a, w') => (Normal a, w')
    | (FbThrows e, w') => (Abrupt e, w')
    | (FbRejects e, w') => (Abrupt e, w')
    end.

(** [return fallback()], not awaited: a throw surfaces here, a rejected
    promise is returned as it is. *)
Definition return_fallback {A : Type} (fallback : Fallback A) : M (Settled A) :=
  fun w =>
    match invoke fallback w with
    | (FbValue a, w') => (Normal (Fulfilled a), w')
    | (FbThrows e, w') => (Abrupt e, w')
    | (FbRejects e, w') => (Normal (Rejected e), w')
    end.

Notation "'let*' x ':=' m 'in' k" := (bind m (fun x => k))
  (at level 10, x name, m at level 100, k at level 200).
Notation "m '>>' k" := (bind m (fun _ => k))
  (at level 100, k at level 200, right associativity).

(** [await redisClient.expire(key, ttl)] under the guard [cond]; the guard
    narrows [ttl] to a number. *)
Definition expire_when (cond : bool) (key : string) (ttl : option Z) : M unit :=
  if cond then
    match ttl with
    | Some seconds =>
        on_client (CallExpire key seconds) (fun c => client_expire c key seconds)
    | None => ret tt
    end
  else ret tt.

(** [ttl > 0] on an optional number ([undefined > 0] is false). *)
Definition ttl_positive (ttl : option Z) : bool :=
  match ttl with Some n => n >? 0 | None => false end.

(** An optional boolean flag as the value the tests see. *)
Definition js_of_flag (flag : option bool) : JsVal :=
  match flag with Some b => JBool b | None => JUndefined end.

(** [private static isRedisInitialized(redis)]: [!!redis]. *)
Definition isRedisInitialized (redis : option RedisClientType) : bool :=
  match redis with Some _ => true | None => false end.

(** [if (!RedisService.isRedisInitialized(redisClient)) { denied } rest] *)
Definition gate {A : Type} (denied rest : M A) : M A :=
  fun w => if negb (isRedisInitialized (redisClient w)) then denied w else rest w.

Definition hSet (key : string) (value : list (string * HashValue)) (ttl : option Z)
  : Async bool :=
  async (gate
    (logger_warn "Redis client not initialized" >> ret (Fulfilled false))
    (try_catch
       (on_client (CallHSet key value) (fun c => client_hSet c key value) >>
        expire_when (truthy (js_of_ttl ttl)) key ttl >>
        ret (Fulfilled true))
       (fun error =>
          logger_error ("Error setting key " ++ key ++ ": " ++ error_to_string error)%string None >>
          ret (Fulfilled false)))).

Definition hGet (key field : string) (fallback : Fallback JsVal) (ttl : option Z)
  : Async JsVal :=
  async (gate
    (logger_warn "Redis client not initialized" >> return_fallback fallback)
    (try_catch
       (let* value := on_client (CallHGet key field) (fun c => client_hGet c key field) in
        expire_when (truthy (js_of_ttl ttl)) key ttl >>
        if truthy (js_of_optional value)
        then ret (Fulfilled (js_of_optional value))
        else return_fallback fallback)
       (fun error =>
          logger_error ("Error getting key " ++ key ++ ": " ++ error_to_string error)%string None >>
          return_fallback fallback))).

Definition hGetAll (key : string) (fallback : Fallback JsVal) (ttl : option Z)
  : Async JsVal :=
  async (gate
    (logger_warn "Redis is not enabled. Please check configuration to enable." >>
     return_fallback fallback)
    (try_catch
       (let* result := on_client (CallHGetAll key) (fun c => client_hGetAll c key) in
        expire_when
          (truthy (JNum (Z.of_nat (length result))) && truthy (js_of_ttl ttl)
           && ttl_positive ttl) key ttl >>
        if truthy (JNum (Z.of_nat (length result)))
        then ret (Fulfilled (js_of_record result))
        else return_fallback fallback)
       (fun error =>
          logger_error "Error retrieving redis key" (Some error) >>
          return_fallback fallback))).

Definition hDel (key : string) (field : FieldArg) : Async bool :=
  async (gate
    (logger_warn "Redis client not initialized" >> ret (Fulfilled false))
    (try_catch
       (on_client (CallHDel key field) (fun c => client_hDel c key field) >>
        ret (Fulfilled true))
       (fun error =>
          logger_error ("Error deleting key " ++ key ++ ": " ++ error_to_string error)%string None >>
          ret (Fulfilled false)))).

Definition jsonSet (key path : string) (value : JsVal) (options : option TtlOptions)
  : Async bool :=
  async (gate
    (logger_warn "Redis is not enabled. Please check configuration to enable." >>
     ret (Fulfilled false))
    (try_catch
       (on_client (CallJsonSet key path value) (fun c => client_json_set c key path value) >>
        expire_when (truthy (js_of_ttl (options ≫= ttl))) key (options ≫= ttl) >>
        ret (Fulfilled true))
       (fun error =>
          logger_error "Error setting redis json" (Some error) >>
          ret (Fulfilled false)))).

Definition jsonGet (key : string) (fallback : Fallback JsVal)
    (options : option RedisJsonGetOptions)
    (customOptions : option CustomRedisJsonGetOptions) : Async JsVal :=
  async (gate
    (logger_warn "Redis is not enabled. Please check configuration to enable." >>
     return_fallback fallback)
    (let ttl := customOptions ≫= json_ttl in
     let resetIfNotFound := default true (customOptions ≫= json_resetIfNotFound) in
     try_catch
       (let* result := on_client (CallJsonGet key options)
                         (fun c => client_json_get c key options) in
        if negb (truthy result) && resetIfNotFound
        then
          let* dataToCache := await_fallback fallback in
          await (jsonSet key "$" dataToCache (Some {| ttl := ttl |})) >>
          ret (Fulfilled dataToCache)
        else
          expire_when (truthy result && truthy (js_of_ttl ttl) && ttl_positive ttl)
            key ttl >>
          if truthy result
          then ret (Fulfilled result)
          else return_fallback fallback)
       (fun error =>
          logger_error "Error retrieving redis json key" (Some error) >>
          return_fallback fallback))).

Definition set (key value : string) (options : option TtlOptions) : Async bool :=
  async (gate
    (logger_warn "Redis is not enabled. Please check configuration to enable." >>
     ret (Fulfilled false))
    (let ttl := options ≫= ttl in
     try_catch
       (on_client (CallSet key value) (fun c => client_set c key value) >>
        expire_when (isDefined (js_of_ttl ttl)) key ttl >>
        ret (Fulfilled true))
       (fun error =>
          logger_error "Error setting redis key" (Some error) >>
          ret (Fulfilled false)))).

(** [if (dataToCache) { await RedisService.set(key, dataToCache, { ttl }) }]:
    the guard narrows [dataToCache] to a string. *)
Definition write_back (key : string) (dataToCache : option string) (ttl : option Z)
  : M unit :=
  if truthy (js_of_optional dataToCache) then
    match dataToCache with
    | Some value => await (set key value (Some {| ttl := ttl |})) >> ret tt
    | None => ret tt
    end
  else ret tt.

Definition get (key : string) (fallback : Fallback (option string))
    (customOptions : option GetOptions) : Async JsVal :=
  async (gate
    (logger_warn "Redis is not enabled. Please check configuration to enable." >>
     return_fallback (fallback_js fallback))
    (let ttl := customOptions ≫= get_ttl in
     let resetIfNotFound := default true (customOptions ≫= resetIfNotFound) in
     let bypassFallbackIfNotFound := customOptions ≫= bypassFallbackIfNotFound in
     try_catch
       (let* result := on_client (CallGet key) (fun c => client_get c key) in
        if negb (truthy (js_of_nullable result)) && resetIfNotFound
        then
          let* dataToCache := await_fallback fallback in
          write_back key dataToCache ttl >>
          ret (Fulfilled (js_of_optional dataToCache))
        else if truthy (js_of_flag bypassFallbackIfNotFound)
        then ret (Fulfilled (js_of_nullable result))
        else if truthy (js_of_nullable result)
        then ret (Fulfilled (js_of_nullable result))
        else return_fallback (fallback_js fallback))
       (fun error =>
          logger_error "Error retrieving redis key" (Some error) >>
          return_fallback (fallback_js fallback)))).

Definition del (key : string) : Async bool :=
  async (gate
    (logger_warn "Redis is not enabled. Please check configuration to enable." >>
     ret (Fulfilled true))
    (try_catch
       (on_client (CallDel key) (fun c => client_del c key) >>
        ret (Fulfilled true))
       (fun error =>
          logger_error "Error deleting redis key" (Some error) >>
          ret (Fulfilled false)))).

(** *** The public operations as data *)

(** One call of a public method with its arguments. *)
Inductive Operation : Type :=
| OpHSet (key : string) (value : list (string * HashValue)) (ttl : option Z)
| OpHGet (key field : string) (fallback : Fallback JsVal) (ttl : option Z)
| OpHGetAll (key : string) (fallback : Fallback JsVal) (ttl : option Z)
| OpHDel (key : string) (field : FieldArg)
| OpJsonSet (key path : string) (value : JsVal) (options : option TtlOptions)
| OpJsonGet (key : string) (fallback : Fallback JsVal)
    (options : option RedisJsonGetOptions)
    (customOptions : option CustomRedisJsonGetOptions)
| OpSet (key value : string) (options : option TtlOptions)
| OpGet (key : string) (fallback : Fallback (option string))
    (customOptions : option GetOptions)
| OpDel (key : string).

Definition as_js (p : Async bool) : Async JsVal :=
  fun w => let '(r, w') := p w in (settled_map JBool r, w').

(** What the caller of the operation observes. *)
Definition exec (op : Operation) : Async JsVal :=
  match op with
  | OpHSet key value ttl => as_js (hSet key value ttl)
  | OpHGet key field fallback ttl => hGet key field fallback ttl
  | OpHGetAll key fallback ttl => hGetAll key fallback ttl
  | OpHDel key field => as_js (hDel key field)
  | OpJsonSet key path value options => as_js (jsonSet key path value options)
  | OpJsonGet key fallback options customOptions =>
      jsonGet key fallback options customOptions
  | OpSet key value options => as_js (set key value options)
  | OpGet key fallback customOptions => get key fallback customOptions
  | OpDel key => as_js (del key)
  end.

(** The families of section 4 of the specification: reads take a fallback
    producer, writes and deletes answer with a boolean. *)
Inductive OpKind : Type :=
| Read (fallback : Fallback JsVal)
| Write
| Delete.

Definition kind_of (op : Operation) : OpKind :=
  match op with
  | OpHSet _ _ _ | OpJsonSet _ _ _ _ | OpSet _ _ _ => Write
  | OpHDel _ _ | OpDel _ => Delete
  | OpHGet _ _ fallback _ | OpHGetAll _ fallback _ | OpJsonGet _ fallback _ _ =>
      Read fallback
  | OpGet _ fallback _ => Read (fallback_js fallback)
  end.

(** The events an operation added to the trace of [w] on its way to [w']. *)
Definition events_since (w w' : World) : list Event :=
  skipn (length (trace w)) (trace w').

End Service.
End RedisService.

(** ** An in-memory client

    A client to run the service on concrete inputs: three keyspaces (strings,
    hashes, JSON documents), an expiry per key, and a schedule of injected
    failures (the next call throws when the head of [faults] is [true]). *)
Module Memory.

Record MemStore : Type :=
  { strings : gmap string string;
    hashes : gmap string (gmap string string);
    documents : gmap string JsVal;
    expiry : gmap string Z;
    faults : list bool }.

Definition with_faults (fs : list bool) (s : MemStore) : MemStore :=
  {| strings := strings s; hashes := hashes s; documents := documents s;
     expiry := expiry s; faults := fs |}.

(** Run [command] unless a failure is scheduled for this call. *)
Definition guarded {A : Type} (command : MemStore -> A * MemStore) (s : MemStore)
  : Completion A * MemStore :=
  match faults s with
  | true :: rest => (Abrupt (MkError "Socket closed unexpectedly"), with_faults rest s)
  | false :: rest => let '(a, s') := command (with_faults rest s) in (Normal a, s')
  | [] => let '(a, s') := command s in (Normal a, s')
  end.

Definition key_exists (key : string) (s : MemStore) : bool :=
  bool_decide (is_Some (strings s !! key))
  || bool_decide (is_Some (hashes s !! key))
  || bool_decide (is_Some (documents s !! key)).

Definition hash_value_to_string (v : HashValue) : string :=
  match v with HStr s => s | HNum n => pretty.pretty n end.

Definition mem_get (key : string) (s : MemStore) : option string * MemStore :=
  (strings s !! key, s).

Definition mem_set (key value : string) (s : MemStore) : unit * MemStore :=
  (tt, {| strings := <[key := value]> (strings s); hashes := hashes s;
          documents := documents s; expiry := delete key (expiry s);
          faults := faults s |}).

Definition mem_del (key : string) (s : MemStore) : unit * MemStore :=
  (tt, {| strings := delete key (strings s); hashes := delete key (hashes s);
          documents := delete key (documents s); expiry := delete key (expiry s);
          faults := faults s |}).

(** EXPIRE does nothing to a key that does not exist, deletes an existing
    key when the timeout is not positive, and records the timeout otherwise. *)
Definition mem_expire (key : string) (seconds : Z) (s : MemStore) : unit * MemStore :=
  if key_exists key s
  then
    if seconds <=? 0 then mem_del key s
    else (tt, {| strings := strings s; hashes := hashes s; documents := documents s;
                 expiry := <[key := seconds]> (expiry s); faults := faults s |})
  else (tt, s).

Definition mem_hGet (key field : string) (s : MemStore) : option string * MemStore :=
  (hashes s !! key ≫= fun h => h !! field, s).

Definition mem_hSet (key : string) (value : list (string * HashValue)) (s : MemStore)
  : unit * MemStore :=
  let old := default ∅ (hashes s !! key) in
  let new := foldl (fun h kv => <[fst kv := hash_value_to_string (snd kv)]> h) old value in
  (tt, {| strings := strings s; hashes := <[key := new]> (hashes s);
          documents := documents s; expiry := expiry s; faults := faults s |}).

Definition mem_hDel (key : string) (field : FieldArg) (s : MemStore) : unit * MemStore :=
  let fields := match field with OneField f => [f] | ManyFields fs => fs end in
  match hashes s !! key with
  | Some h =>
      (tt, {| strings := strings s;
              hashes := <[key := foldl (fun h f => delete f h) h fields]> (hashes s);
              documents := documents s; expiry := expiry s; faults := faults s |})
  | None => (tt, s)
  end.

Definition mem_hGetAll (key : string) (s : MemStore)
  : list (string * string) * MemStore :=
  (map_to_list (default ∅ (hashes s !! key)), s).

(** The field a path [$.name] names, if it has that form. *)
Definition path_field (p : string) : option string :=
  match p with
  | String "$"%char (String "."%char name) => Some name
  | _ => None
  end.

Fixpoint lookup_field (name : string) (fields : list (string * JsVal)) : JsVal :=
  match fields with
  | [] => JNull
  | (k, v) :: rest => if String.eqb k name then v else lookup_field name rest
  end.

(** The whole document for the root path (or no path), one top-level field
    for a path [$.name], [null] for a key or field that is absent. *)
Definition mem_json_get (key : string) (options : option RedisJsonGetOptions)
    (s : MemStore) : JsVal * MemStore :=
  match documents s !! key with
  | None => (JNull, s)
  | Some doc =>
      match options ≫= path with
      | None => (doc, s)
      | Some p =>
          if String.eqb p "$" then (doc, s)
          else match path_field p, doc with
               | Some name, JObj fields => (lookup_field name fields, s)
               | _, _ => (JNull, s)
               end
      end
  end.

Fixpoint replace_field (name : string) (v : JsVal) (fields : list (string * JsVal))
  : list (string * JsVal) :=
  match fields with
  | [] => [(name, v)]
  | (k, old) :: rest =>
      if String.eqb k name then (k, v) :: rest else (k, old) :: replace_field name v rest
  end.

(** The root path replaces the document; a path [$.name] sets one top-level
    field of a document that is an object; other paths change nothing. *)
Definition mem_json_set (key path : string) (value : JsVal) (s : MemStore)
  : unit * MemStore :=
  let put doc :=
    (tt, {| strings := strings s; hashes := hashes s;
            documents := <[key := doc]> (documents s);
            expiry := expiry s; faults := faults s |}) in
  if String.eqb path "$" then put value
  else match path_field path, documents s !! key with
       | Some name, Some (JObj fields) => put (JObj (replace_field name value fields))
       | _, _ => (tt, s)
       end.

Definition client : RedisService.RedisClientType (Store := MemStore) :=
  {| RedisService.client_get := fun key => guarded (mem_get key);
     RedisService.client_set := fun key value => guarded (mem_set key value);
     RedisService.client_del := fun key => guarded (mem_del key);
     RedisService.client_expire := fun key seconds => guarded (mem_expire key seconds);
     RedisService.client_hGet := fun key field => guarded (mem_hGet key field);
     RedisService.client_hSet := fun key value => guarded (mem_hSet key value);
     RedisService.client_hDel := fun key field => guarded (mem_hDel key field);
     RedisService.client_hGetAll := fun key => guarded (mem_hGetAll key);
     RedisService.client_json_get := fun key options => guarded (mem_json_get key options);
     RedisService.client_json_set :=
       fun key path value => guarded (mem_json_set key path value) |}.

Definition empty : MemStore :=
  {| strings := ∅; hashes := ∅; documents := ∅; expiry := ∅; faults := [] |}.

(** A caller whose state counts the fallback invocations made so far. *)
Definition Counter : Type := nat.

(** The fallback that always yields [v]. *)
Definition constant {A : Type} (v : A) : RedisService.Fallback (Caller := Counter) A :=
  fun n => (FbValue v, S n).

(** The fallback that behaves as the [n]-th entry of [script] on its [n]-th
    invocation, and as [last] once the script is exhausted. *)
Definition scripted {A : Type} (script : list (FbResult A)) (last : FbResult A)
  : RedisService.Fallback (Caller := Counter) A :=
  fun n => (nth n script last, S n).

(** A world with the client connected, or with a null handle. *)
Definition connected (s : MemStore) : RedisService.World :=
  {| RedisService.redisClient := Some client; RedisService.store := s;
     RedisService.caller := 0%nat; RedisService.trace := [];
     RedisService.logs := [] |}.

Definition unavailable (s : MemStore) : RedisService.World :=
  {| RedisService.redisClient := None; RedisService.store := s;
     RedisService.caller := 0%nat; RedisService.trace := [];
     RedisService.logs := [] |}.

End Memory.

Import RedisService.

(** ** Stores, options and fallbacks of the scenarios *)
Module Scenario.

Import Memory.

(** The key [k] holds [v] and expires in 5 seconds. *)
Definition store_k_v : MemStore :=
  {| strings := {["k" := "v"]}; hashes := ∅; documents := ∅;
     expiry := {["k" := 5]}; faults := [] |}.

(** The hash [h] has the field [g] only. *)
Definition store_h_g : MemStore :=
  {| strings := ∅; hashes := {["h" := {["g" := "1"]}]}; documents := ∅;
     expiry := ∅; faults := [] |}.

(** The document [doc] is [{"a": 1, "b": 2}]. *)
Definition store_doc : MemStore :=
  {| strings := ∅; hashes := ∅;
     documents := {["doc" := JObj [("a", JNum 1); ("b", JNum 2)]]};
     expiry := ∅; faults := [] |}.

(** [{ ttl }] for [get]. *)
Definition with_ttl (seconds : Z) : option GetOptions :=
  Some {| get_ttl := Some seconds; resetIfNotFound := None;
          bypassFallbackIfNotFound := None |}.

(** [{ resetIfNotFound, bypassFallbackIfNotFound: true }] for [get]. *)
Definition bypass_with (reset : option bool) : option GetOptions :=
  Some {| get_ttl := None; resetIfNotFound := reset;
          bypassFallbackIfNotFound := Some true |}.

(** A fallback whose first invocation returns a promise that rejects and
    whose later invocations yield ["X"]. *)
Definition fails_once : Fallback (Caller := Counter) (option string) :=
  scripted [FbRejects (MkError "database offline")] (FbValue (Some "X")).

(** A fallback that rejects at every invocation. *)
Definition always_fails : Fallback (Caller := Counter) (option string) :=
  scripted [] (FbRejects (MkError "database offline")).

(** A store whose schedule of failures is [fs]. *)
Definition failing (fs : list bool) (s : MemStore) : MemStore := with_faults fs s.

(** [{ path }] for the client's [json.get]. *)
Definition at_path (p : string) : option RedisJsonGetOptions :=
  Some {| path := Some p |}.

End Scenario.

(** ** Connection bootstrap: common/database/redis.ts *)
Module Bootstrap.
Section Boot.

Context {Store Caller : Type}.

(** The fields of [config.redis] that [initializeRedis] reads; the module
    ../config/config is not among the sources, so the configuration is an
    argument. *)
Record RedisConfig : Type :=
  { enable : bool;
    host : string;
    port : Z;
    username : option string;
    password : option string }.

(** The object handed to [createClient]: the socket, and the two
    credentials when the spread adds them. *)
Record ClientOptions : Type :=
  { socket_host : string;
    socket_port : Z;
    auth : option (string * string) }.

(** [{ socket: { host, port }, ...(password && username ? { username,
    password } : {}) }] *)
Definition client_options (config : RedisConfig) : ClientOptions :=
  {| socket_host := host config;
     socket_port := port config;
     auth :=
       if truthy (js_of_optional (password config))
          && truthy (js_of_optional (username config))
       then
         match username config, password config with
         | Some u, Some p => Some (u, p)
         | _, _ => None
         end
       else None |}.

(** The node-redis entry points the bootstrap uses: [createClient], and the
    [connect] method of the client made for the given options. *)
Record RedisDriver : Type :=
  { createClient : ClientOptions -> RedisClientType (Store := Store);
    connect : ClientOptions -> Store -> Completion unit * Store }.

(** [redisClient = handle] *)
Definition assign (handle : option (RedisClientType (Store := Store)))
  : M (Store := Store) (Caller := Caller) unit :=
  fun w =>
    (Normal tt,
     {| redisClient := handle; store := store w; caller := caller w;
        trace := trace w; logs := logs w |}).

(** [redisClient.connect()] *)
Definition client_connect (driver : RedisDriver) (options : ClientOptions)
  : M (Store := Store) (Caller := Caller) unit :=
  fun w =>
    let '(r, s') := connect driver options (store w) in
    (r,
     {| redisClient := redisClient w; store := s'; caller := caller w;
        trace := trace w; logs := logs w |}).

(** [initializeRedis].  The chain [connect().then(...).catch(...)] is a
    [try] around the connection; the info line of [logger.log] is not kept,
    [logs] holding warnings and errors only. *)
Definition initializeRedis (config : RedisConfig) (driver : RedisDriver)
  : Async (Store := Store) (Caller := Caller) unit :=
  async (fun w =>
    if negb (enable config) then ret (Fulfilled tt) w
    else
      bind (assign (Some (createClient driver (client_options config)))) (fun _ =>
      bind (try_catch
              (bind (client_connect driver (client_options config)) (fun _ => ret tt))
              (fun err =>
                 bind (logger_error "Redis connection error:" (Some err)) (fun _ =>
                 assign None))) (fun _ =>
      ret (Fulfilled tt))) w).

End Boot.
End Bootstrap.

(** ** Further stores, options and fallbacks of the scenarios *)
Module Cases.

Import Memory.

(** A driver that hands out the in-memory client; its [connect] fails when
    the schedule of the store says so. *)
Definition driver : Bootstrap.RedisDriver (Store := MemStore) :=
  {| Bootstrap.createClient := fun _ => client;
     Bootstrap.connect := fun _ => guarded (fun s => (tt, s)) |}.

(** Redis enabled, with a password and a user name. *)
Definition config : Bootstrap.RedisConfig :=
  {| Bootstrap.enable := true; Bootstrap.host := "localhost";
     Bootstrap.port := 6379; Bootstrap.username := Some "cache";
     Bootstrap.password := Some "secret" |}.

(** A fallback whose promise rejects at every invocation. *)
Definition rejecting : Fallback (Caller := Counter) JsVal :=
  scripted [] (FbRejects (MkError "database offline")).

(** The document [doc] is the number 0. *)
Definition store_zero : MemStore :=
  {| strings := ∅; hashes := ∅; documents := {["doc" := JNum 0]};
     expiry := ∅; faults := [] |}.

(** [{ ttl, resetIfNotFound: false }] for [get] and for [jsonGet]. *)
Definition no_reset (seconds : option Z) : option GetOptions :=
  Some {| get_ttl := seconds; resetIfNotFound := Some false;
          bypassFallbackIfNotFound := None |}.

Definition json_no_reset (seconds : option Z) : option CustomRedisJsonGetOptions :=
  Some {| json_ttl := seconds; json_resetIfNotFound := Some false |}.

(** [{ ttl }] for [jsonGet], [set] and [jsonSet]. *)
Definition json_ttl_of (seconds : Z) : option CustomRedisJsonGetOptions :=
  Some {| json_ttl := Some seconds; json_resetIfNotFound := None |}.

Definition ttl_of (seconds : Z) : option TtlOptions :=
  Some {| ttl := Some seconds |}.

End Cases.

(** ** Observations on traces and logs *)

(** A store call that writes or deletes data. *)
Definition is_write_call (ev : Event) : bool :=
  match ev with
  | EvStore (CallSet _ _) _ | EvStore (CallDel _) _ | EvStore (CallHSet _ _) _
  | EvStore (CallHDel _ _) _ | EvStore (CallJsonSet _ _ _) _ => true
  | _ => false
  end.

(** An [expire] with a timeout that is not positive. *)
Definition is_nonpositive_expire (ev : Event) : bool :=
  match ev with
  | EvStore (CallExpire _ seconds) _ => seconds <=? 0
  | _ => false
  end.

Definition is_error_entry (entry : LogEntry) : bool :=
  match entry with LogError _ _ => true | LogWarn _ => false end.

Definition is_warn_entry (entry : LogEntry) : bool :=
  match entry with LogWarn _ => true | LogError _ _ => false end.

Section Observations.

Context {Store Caller : Type}.

(** The log entries an operation added on its way from [w] to [w']. *)
Definition logs_since (w w' : World (Store := Store) (Caller := Caller))
  : list LogEntry :=
  skipn (length (logs w)) (logs w').

(** Whether a miss of the operation may write to the store: the writes and
    deletes themselves, and [get] and [jsonGet] unless [resetIfNotFound] is
    false. *)
Definition populates (op : Operation (Caller := Caller)) : bool :=
  match op with
  | OpHGet _ _ _ _ | OpHGetAll _ _ _ => false
  | OpGet _ _ customOptions => default true (customOptions ≫= resetIfNotFound)
  | OpJsonGet _ _ _ customOptions =>
      default true (customOptions ≫= json_resetIfNotFound)
  | _ => true
  end.

(** The key, the [ttl] and the write call of a write operation. *)
Definition write_target (op : Operation (Caller := Caller))
  : option (StoreCall * string * option Z) :=
  match op with
  | OpSet key value options => Some (CallSet key value, key, options ≫= ttl)
  | OpHSet key value seconds => Some (CallHSet key value, key, seconds)
  | OpJsonSet key path value options =>
      Some (CallJsonSet key path value, key, options ≫= ttl)
  | _ => None
  end.

(** The shape of the events of a write operation aimed at [target]: nothing,
    the write alone, or the successful write and one [expire] of the same
    key with the given [ttl]. *)
Definition write_shape (target : StoreCall * string * option Z) (evs : list Event)
  : Prop :=
  match evs with
  | [] => True
  | [EvStore call _] => call = target.1.1
  | [EvStore call None; EvStore (CallExpire key seconds) _] =>
      call = target.1.1 /\ key = target.1.2 /\ target.2 = Some seconds
  | _ => False
  end.

End Observations.

(** * Properties *)

Section Properties.

Context {Store Caller : Type}.

Local Abbreviation World := (@World Store Caller).
Local Abbreviation Operation := (@Operation Caller).
Local Abbreviation RedisClientType := (@RedisClientType Store).
Local Abbreviation RedisDriver := (@Bootstrap.RedisDriver Store).
Local Abbreviation initializeRedis :=
  (@Bootstrap.initializeRedis Store Caller).

Lemma events_since_app (w w' : World) (evs : list Event) :
  trace w' = trace w ++ evs -> events_since w w' = evs.
Proof.
  unfold events_since. intros ->.
  induction (trace w) as [|ev t IH]; simpl; auto.
Qed.

Lemma events_since_refl (w w' : World) :
  trace w' = trace w -> events_since w w' = [].
Proof.
  intros H. apply events_since_app. rewrite H. symmetry. apply app_nil_r.
Qed.

(** Unfold the statement-level combinators of the service. *)
Ltac unfold_combinators :=
  unfold expire_when, async, gate, try_catch, bind, ret, await, await_fallback,
    return_fallback, invoke, on_client, logger_warn, logger_error, fallback_js,
    isRedisInitialized in *.

Ltac unfold_service :=
  unfold exec, as_js, get, write_back, jsonGet, set, jsonSet, hSet, hGet, hGetAll,
    hDel, del in *;
  unfold_combinators.

(** Case analysis on every outcome the code branches on: the results of the
    client's methods and of the fallback, the options, the guards. *)
Ltac split_outcomes :=
  repeat (simpl;
          match goal with
          | |- context [match ?x with _ => _ end] =>
              lazymatch x with
              | context [match _ with _ => _ end] => fail
              | context [if _ then _ else _] => fail
              | _ => destruct x eqn:?
              end
          end).

(** Read off the events an operation added to the trace. *)
Ltac read_events :=
  repeat first
    [ rewrite events_since_refl in * by reflexivity
    | erewrite events_since_app in * by (simpl; rewrite <- ?app_assoc; reflexivity) ].

(** C1. When the store handle is null, every read ([get], [hGet], [hGetAll],
    [jsonGet]) settles exactly as one invocation of the caller's fallback
    producer does, every write ([set], [hSet], [jsonSet]) resolves to
    [false], and no operation invokes a store method: the trace gains no
    store call and the store is unchanged. *)
Theorem unavailable_store_degrades (op : Operation) (w : World) :
  redisClient w = None ->
  store (snd (exec op w)) = store w /\
  store_calls (events_since w (snd (exec op w))) = [] /\
  match kind_of op with
  | Read fallback =>
      fst (exec op w) = settle (fst (fallback (caller w))) /\
      caller (snd (exec op w)) = snd (fallback (caller w)) /\
      events_since w (snd (exec op w)) = [EvFallback]
  | Write =>
      fst (exec op w) = Fulfilled (JBool false) /\
      events_since w (snd (exec op w)) = []
  | Delete => True
  end.
Proof.
  intros Hnull.
  destruct op; unfold_service; rewrite Hnull; simpl;
    try (destruct (fallback (caller w)) as [[v|e|e] c'] eqn:Hfb; simpl);
    rewrite ?(events_since_app w _ [EvFallback]), ?events_since_refl by reflexivity;
    unfold fallback_js; rewrite ?Hfb; simpl; auto.
Qed.

(** C2. Whatever the client's methods do, an operation during which a store
    method threw does not raise: [set], [hSet], [jsonSet], [hDel] and [del]
    resolve to [false], and [get], [hGet], [hGetAll] and [jsonGet] invoke
    the fallback producer once and settle as that invocation does. *)
Theorem store_errors_never_raise (op : Operation) (w : World) :
  existsb is_store_failure (events_since w (snd (exec op w))) = true ->
  match kind_of op with
  | Read fallback =>
      fallback_count (events_since w (snd (exec op w))) = 1%nat /\
      fst (exec op w) = settle (fst (fallback (caller w)))
  | Write | Delete => fst (exec op w) = Fulfilled (JBool false)
  end.
Proof.
  destruct op; unfold kind_of; unfold_service.
  all: split_outcomes.
  all: read_events.
  all: simpl in *; intros Hthrew; try discriminate; auto.
Qed.

Lemma truthy_nonempty (v : string) : v <> "" -> truthy (JStr v) = true.
Proof.
  intros Hv. simpl. apply negb_true_iff. now apply String.eqb_neq.
Qed.

(** A hit of [get]: the value is returned, the fallback is not invoked, and
    the read is the only store call, whatever [ttl] the options carry. *)
Lemma get_hit (client : RedisClientType) (key : string)
    (fallback : Fallback (option string)) (customOptions : option GetOptions)
    (w : World) (v : string) (s' : Store) :
  redisClient w = Some client ->
  client_get client key (store w) = (Normal (Some v), s') ->
  v <> "" ->
  get key fallback customOptions w =
    (Fulfilled (JStr v),
     {| redisClient := Some client; store := s'; caller := caller w;
        trace := trace w ++ [EvStore (CallGet key) None]; logs := logs w |}).
Proof.
  intros Hclient Hget Hv. apply truthy_nonempty in Hv.
  unfold_service. rewrite Hclient. simpl. rewrite Hget. simpl in *. rewrite Hv. simpl.
  destruct (default true (customOptions ≫= resetIfNotFound));
    destruct (truthy (js_of_flag (customOptions ≫= bypassFallbackIfNotFound)));
    reflexivity.
Qed.

(** A miss of [hGet] with a non-zero [ttl]: [expire] is called before the
    value is looked at. *)
Lemma hGet_miss_expires (client : RedisClientType) (key field : string)
    (fallback : Fallback JsVal) (seconds : Z) (w : World) (s' : Store) :
  redisClient w = Some client ->
  client_hGet client key field (store w) = (Normal None, s') ->
  seconds <> 0 ->
  exists rest,
    events_since w (snd (hGet key field fallback (Some seconds) w)) =
      [EvStore (CallHGet key field) None;
       EvStore (CallExpire key seconds)
         (failure_of (fst (client_expire client key seconds s')))] ++ rest.
Proof.
  intros Hclient Hget Hsec. apply Z.eqb_neq in Hsec.
  unfold_service. rewrite Hclient. simpl. rewrite Hget. simpl. rewrite Hsec. simpl.
  destruct (client_expire client key seconds s') as [[[]|e] s''];
    split_outcomes; read_events; simpl; eauto.
Qed.

(** Left to themselves the boolean operations never reject, whatever the
    client does. *)
Lemma booleans_never_reject (op : Operation) (w : World) :
  match kind_of op with
  | Read _ => True
  | Write | Delete => exists b, fst (exec op w) = Fulfilled (JBool b)
  end.
Proof.
  destruct op; unfold kind_of; trivial; unfold_service; split_outcomes; eauto.
Qed.

(** A read rejects only through its fallback: with a fallback that yields a
    value at every invocation, every read is fulfilled, whatever the client
    does. *)
Lemma reads_reject_only_through_fallback (op : Operation) (w : World) :
  match kind_of op with
  | Read fallback =>
      (forall c, exists v c', fallback c = (FbValue v, c')) ->
      exists v, fst (exec op w) = Fulfilled v
  | Write | Delete => True
  end.
Proof.
  destruct op; unfold kind_of; trivial; intros Hvalue;
    unfold_service; split_outcomes; eauto.
  all: exfalso;
    match goal with
    | H : ?f ?c = (?r, _) |- _ =>
        destruct (Hvalue c) as (v' & c'' & Hv);
        unfold fallback_js in Hv; rewrite H in Hv; simpl in Hv; congruence
    end.
Qed.

(** C5. On a miss of [get] (the client's [get] answers [null] or the empty
    string) with [resetIfNotFound] left at its default, the fallback is
    invoked; when it yields [v], [v] is what [get] resolves to, and a truthy
    [v] is written back by [set] with the [ttl] of the options.  The final
    world is the one [set] leaves, whatever [set] achieved. *)
Theorem get_miss_populates (client : RedisClientType) (key : string)
    (fallback : Fallback (option string)) (customOptions : option GetOptions)
    (w : World) (r v : option string) (s' : Store) (c' : Caller) :
  redisClient w = Some client ->
  client_get client key (store w) = (Normal r, s') ->
  truthy (js_of_nullable r) = false ->
  default true (customOptions ≫= resetIfNotFound) = true ->
  fallback (caller w) = (FbValue v, c') ->
  let missed :=
    {| redisClient := Some client; store := s'; caller := c';
       trace := trace w ++ [EvStore (CallGet key) None; EvFallback];
       logs := logs w |} in
  get key fallback customOptions w =
    (Fulfilled (js_of_optional v),
     match v with
     | Some value =>
         if truthy (JStr value)
         then snd (set key value (Some {| ttl := customOptions ≫= get_ttl |}) missed)
         else missed
     | None => missed
     end).
Proof.
  intros Hclient Hget Hmiss Hreset Hfb missed. subst missed.
  unfold get, write_back. unfold_combinators.
  rewrite Hclient. simpl. rewrite Hget. simpl. rewrite Hmiss, Hreset. simpl.
  rewrite Hfb. simpl. rewrite <- app_assoc. simpl.
  destruct v as [value|]; simpl; [|reflexivity].
  destruct (negb (String.eqb value "")); simpl; [|reflexivity].
  match goal with
  | |- context [set ?k ?x ?o ?w0] => destruct (set k x o w0) as [[b|e] w1] eqn:Hset
  end; simpl; [reflexivity|].
  exfalso. revert Hset. unfold set. unfold_combinators. simpl.
  split_outcomes; intros; discriminate.
Qed.

(** C6, amended. On a miss of [get] with [bypassFallbackIfNotFound] true and
    [resetIfNotFound] false, [get] resolves to the miss value as the client
    gave it and the fallback is not invoked: the read is the only event. *)
Theorem get_bypass_without_reset (client : RedisClientType) (key : string)
    (fallback : Fallback (option string)) (customOptions : option GetOptions)
    (w : World) (r : option string) (s' : Store) :
  redisClient w = Some client ->
  client_get client key (store w) = (Normal r, s') ->
  truthy (js_of_nullable r) = false ->
  customOptions ≫= resetIfNotFound = Some false ->
  customOptions ≫= bypassFallbackIfNotFound = Some true ->
  get key fallback customOptions w =
    (Fulfilled (js_of_nullable r),
     {| redisClient := Some client; store := s'; caller := caller w;
        trace := trace w ++ [EvStore (CallGet key) None]; logs := logs w |}).
Proof.
  intros Hclient Hget Hmiss Hreset Hbypass.
  unfold get. unfold_combinators.
  rewrite Hclient. simpl. rewrite Hget. simpl.
  rewrite Hmiss, Hreset, Hbypass. reflexivity.
Qed.

(** C7. When [jsonGet] reads [null] with [resetIfNotFound] true (or left at
    its default) and the fallback yields [v], [jsonGet] resolves to [v]
    whatever the write-back does, and the write-back is [jsonSet] of [v] at
    the root path [$], whatever path the read options name: the client's
    [json.set] is called with [$] right after the fallback. *)
Theorem jsonGet_miss_writes_root (client : RedisClientType) (key : string)
    (fallback : Fallback JsVal) (options : option RedisJsonGetOptions)
    (customOptions : option CustomRedisJsonGetOptions)
    (w : World) (v : JsVal) (s' : Store) (c' : Caller) :
  redisClient w = Some client ->
  client_json_get client key options (store w) = (Normal JNull, s') ->
  default true (customOptions ≫= json_resetIfNotFound) = true ->
  fallback (caller w) = (FbValue v, c') ->
  let missed :=
    {| redisClient := Some client; store := s'; caller := c';
       trace := trace w ++ [EvStore (CallJsonGet key options) None; EvFallback];
       logs := logs w |} in
  jsonGet key fallback options customOptions w =
    (Fulfilled v,
     snd (jsonSet key "$" v (Some {| ttl := customOptions ≫= json_ttl |}) missed)) /\
  exists rest,
    events_since w (snd (jsonGet key fallback options customOptions w)) =
      [EvStore (CallJsonGet key options) None; EvFallback;
       EvStore (CallJsonSet key "$" v)
         (failure_of (fst (client_json_set client key "$" v s')))] ++ rest.
Proof.
  intros Hclient Hget Hreset Hfb missed. subst missed.
  unfold jsonGet, jsonSet. unfold_combinators.
  rewrite Hclient. simpl. rewrite Hget. simpl. rewrite Hreset. simpl.
  rewrite Hfb. simpl. rewrite <- app_assoc. simpl.
  destruct (client_json_set client key "$" v s') as [[[]|e] s''] eqn:Hset; simpl.
  - split_outcomes; (split; [reflexivity|]); read_events; simpl; eauto.
  - split; [reflexivity|]. read_events. simpl. eauto.
Qed.

(** C8, amended. When the store handle is null, [del] resolves to [true] and
    [hDel] resolves to [false] (as the write operations do); neither invokes
    a store method. *)
Theorem unavailable_store_deletes (key hkey : string) (field : FieldArg) (w : World) :
  redisClient w = None ->
  fst (del key w) = Fulfilled true /\
  events_since w (snd (del key w)) = [] /\
  store (snd (del key w)) = store w /\
  fst (hDel hkey field w) = Fulfilled false /\
  events_since w (snd (hDel hkey field w)) = [] /\
  store (snd (hDel hkey field w)) = store w.
Proof.
  intros Hnull. unfold del, hDel. unfold_combinators. rewrite Hnull. simpl.
  read_events. auto 10.
Qed.

(** C10. After a successful write, [set] with [ttl: 0] calls [expire(key, 0)]
    (it tests [isDefined(ttl)]), while [hSet] with [ttl] 0 and [jsonSet] with
    [ttl: 0] call no [expire] (they test the truthiness of [ttl]). *)
Theorem ttl_zero_disagreement (client : RedisClientType) (key value path : string)
    (fields : list (string * HashValue)) (doc : JsVal) (w : World)
    (s1 s2 s3 : Store) :
  redisClient w = Some client ->
  client_set client key value (store w) = (Normal tt, s1) ->
  client_hSet client key fields (store w) = (Normal tt, s2) ->
  client_json_set client key path doc (store w) = (Normal tt, s3) ->
  events_since w (snd (set key value (Some {| ttl := Some 0 |}) w)) =
    [EvStore (CallSet key value) None;
     EvStore (CallExpire key 0) (failure_of (fst (client_expire client key 0 s1)))] /\
  events_since w (snd (hSet key fields (Some 0) w)) =
    [EvStore (CallHSet key fields) None] /\
  events_since w (snd (jsonSet key path doc (Some {| ttl := Some 0 |}) w)) =
    [EvStore (CallJsonSet key path doc) None].
Proof.
  intros Hclient Hset HhSet Hjson.
  unfold set, hSet, jsonSet. unfold_combinators.
  rewrite Hclient. simpl. rewrite Hset, HhSet, Hjson. simpl.
  destruct (client_expire client key 0 s1) as [[[]|e] s1']; simpl;
    read_events; auto.
Qed.

(** ** Further properties of the service *)

Lemma logs_since_app (w w' : World) (entries : list LogEntry) :
  logs w' = logs w ++ entries -> logs_since w w' = entries.
Proof.
  unfold logs_since. intros ->.
  induction (logs w) as [|entry t IH]; simpl; auto.
Qed.

Lemma logs_since_refl (w w' : World) :
  logs w' = logs w -> logs_since w w' = [].
Proof.
  intros H. apply logs_since_app. rewrite H. symmetry. apply app_nil_r.
Qed.

(** Read off the log entries an operation added. *)
Ltac read_logs :=
  repeat first
    [ rewrite logs_since_refl in * by reflexivity
    | erewrite logs_since_app in * by (simpl; rewrite <- ?app_assoc; reflexivity) ].

(** X1. With a client connected, [set], [hSet], [jsonSet], [hDel] and [del]
    resolve to [true] exactly when none of the store calls they made threw. *)
Theorem boolean_result_tracks_store (client : RedisClientType) (op : Operation)
    (w : World) :
  redisClient w = Some client ->
  match kind_of op with
  | Read _ => True
  | Write | Delete =>
      fst (exec op w) =
        Fulfilled
          (JBool (negb (existsb is_store_failure (events_since w (snd (exec op w))))))
  end.
Proof.
  intros Hclient.
  destruct op; unfold kind_of; trivial; unfold_service; rewrite Hclient;
    split_outcomes; read_events; reflexivity.
Qed.

(** X2. A write operation makes at most two store calls: the write itself
    and, only after the write succeeded, one [expire] of the same key with
    the [ttl] it was given.  A write that throws is never followed by an
    [expire]. *)
Theorem write_then_expire (op : Operation) (w : World)
    (target : StoreCall * string * option Z) :
  write_target op = Some target ->
  write_shape target (events_since w (snd (exec op w))).
Proof.
  destruct op; simpl; intros Htarget; try discriminate Htarget;
    injection Htarget as <-; unfold_service;
    split_outcomes; read_events; simpl; auto; congruence.
Qed.



(** X5. A hit of [hGetAll] (the hash has a field) during which no store call
    throws resolves to the hash without invoking the fallback; the key's
    [expire] is called exactly when [ttl] is positive. *)
Theorem hGetAll_hit (client : RedisClientType) (key : string)
    (fallback : Fallback JsVal) (seconds : option Z) (w : World)
    (result : list (string * string)) (s' : Store) :
  redisClient w = Some client ->
  client_hGetAll client key (store w) = (Normal result, s') ->
  result <> [] ->
  existsb is_store_failure (events_since w (snd (hGetAll key fallback seconds w)))
    = false ->
  fst (hGetAll key fallback seconds w) = Fulfilled (js_of_record result) /\
  events_since w (snd (hGetAll key fallback seconds w)) =
    EvStore (CallHGetAll key) None ::
    match seconds with
    | Some n => if n >? 0 then [EvStore (CallExpire key n) None] else []
    | None => []
    end.
Proof.
  intros Hclient Hget Hne.
  destruct result as [|kv result]; [congruence|].
  unfold hGetAll. unfold_combinators.
  rewrite Hclient. simpl. rewrite Hget.
  destruct seconds as [n|]; simpl; [destruct (n =? 0) eqn:Hz; simpl|].
  - apply Z.eqb_eq in Hz. subst n. simpl. read_events. auto.
  - destruct (n >? 0); simpl; rewrite ?Hclient; split_outcomes; read_events; simpl;
      intros Hok; try discriminate; auto.
  - read_events. auto.
Qed.

(** X6. Whatever the client does, [hGetAll] never calls [expire] with a
    timeout that is not positive. *)
Theorem hGetAll_expires_positive (key : string) (fallback : Fallback JsVal)
    (seconds : option Z) (w : World) :
  existsb is_nonpositive_expire
    (events_since w (snd (hGetAll key fallback seconds w))) = false.
Proof.
  unfold hGetAll. unfold_combinators.
  destruct seconds as [n|]; simpl.
  - destruct (n >? 0) eqn:Hpos; rewrite ?andb_false_r;
      split_outcomes; read_events; simpl; auto.
    all: replace (n <=? 0) with false by lia; reflexivity.
  - rewrite ?andb_false_r. split_outcomes; read_events; reflexivity.
Qed.

(** X7. Whatever the client and the fallback do, the hash reads, and [get]
    and [jsonGet] called with [resetIfNotFound] false, make no store call
    that writes or deletes: a miss leaves the store to the caller. *)
Theorem reads_without_reset_never_write (op : Operation) (w : World) :
  populates op = false ->
  existsb is_write_call (events_since w (snd (exec op w))) = false.
Proof.
  destruct op; simpl; intros Hpop; try discriminate Hpop;
    unfold_service; rewrite ?Hpop;
    split_outcomes; read_events; try reflexivity;
    exfalso;
    match goal with
    | H : _ && false = true |- _ => rewrite andb_false_r in H; discriminate H
    end.
Qed.

(** X8. A hit of [jsonGet] (the client's result is truthy) during which no
    store call throws resolves to that result without invoking the fallback
    and without writing; the key's [expire] is called exactly when [ttl] is
    positive, whatever [resetIfNotFound] says. *)
Theorem jsonGet_hit (client : RedisClientType) (key : string)
    (fallback : Fallback JsVal) (options : option RedisJsonGetOptions)
    (customOptions : option CustomRedisJsonGetOptions) (w : World)
    (result : JsVal) (s' : Store) :
  redisClient w = Some client ->
  client_json_get client key options (store w) = (Normal result, s') ->
  truthy result = true ->
  existsb is_store_failure
    (events_since w (snd (jsonGet key fallback options customOptions w))) = false ->
  fst (jsonGet key fallback options customOptions w) = Fulfilled result /\
  events_since w (snd (jsonGet key fallback options customOptions w)) =
    EvStore (CallJsonGet key options) None ::
    match customOptions ≫= json_ttl with
    | Some n => if n >? 0 then [EvStore (CallExpire key n) None] else []
    | None => []
    end.
Proof.
  intros Hclient Hget Hhit.
  unfold jsonGet. unfold_combinators.
  rewrite Hclient. simpl. rewrite Hget. simpl. rewrite Hhit. simpl.
  destruct (customOptions ≫= json_ttl) as [n|]; simpl;
    [destruct (n =? 0) eqn:Hz; simpl|].
  - apply Z.eqb_eq in Hz. subst n. simpl. read_events. auto.
  - destruct (n >? 0); simpl; rewrite ?Hclient; split_outcomes; read_events; simpl;
      intros Hok; try discriminate; auto.
  - read_events. auto.
Qed.

(** X9. [jsonGet] takes every falsy result for a miss: a stored document
    that is [0], [false] or the empty string is, with [resetIfNotFound] true
    or omitted, answered with the fallback's value and overwritten with it
    at the root path. *)
Theorem jsonGet_falsy_document_is_overwritten (client : RedisClientType)
    (key : string) (fallback : Fallback JsVal)
    (options : option RedisJsonGetOptions)
    (customOptions : option CustomRedisJsonGetOptions)
    (w : World) (result v : JsVal) (s' : Store) (c' : Caller) :
  redisClient w = Some client ->
  client_json_get client key options (store w) = (Normal result, s') ->
  In result [JNum 0; JBool false; JStr ""] ->
  default true (customOptions ≫= json_resetIfNotFound) = true ->
  fallback (caller w) = (FbValue v, c') ->
  fst (jsonGet key fallback options customOptions w) = Fulfilled v /\
  exists rest,
    events_since w (snd (jsonGet key fallback options customOptions w)) =
      [EvStore (CallJsonGet key options) None; EvFallback;
       EvStore (CallJsonSet key "$" v)
         (failure_of (fst (client_json_set client key "$" v s')))] ++ rest.
Proof.
  intros Hclient Hget Hfalsy Hreset Hfb.
  assert (truthy result = false) as Hmiss.
  { simpl in Hfalsy. destruct Hfalsy as [<-|[<-|[<-|[]]]]; reflexivity. }
  unfold jsonGet, jsonSet. unfold_combinators.
  rewrite Hclient. simpl. rewrite Hget. simpl. rewrite Hmiss, Hreset. simpl.
  rewrite Hfb. simpl.
  destruct (client_json_set client key "$" v s') as [[[]|e] s''] eqn:Hset; simpl;
    split_outcomes; (split; [reflexivity|]); read_events; simpl; eauto.
Qed.

(** X10. On a miss with [resetIfNotFound] false (and, for [get], the bypass
    not set), [get] and [jsonGet] resolve to the fallback's value after the
    read and one invocation of the fallback: nothing is written and no
    [expire] is called, whatever [ttl] says, and the store is as the read
    left it. *)
Theorem miss_without_reset_only_reads (client : RedisClientType) (key : string)
    (fallback : Fallback (option string)) (jsonFallback : Fallback JsVal)
    (seconds : option Z) (options : option RedisJsonGetOptions) (w : World)
    (r v : option string) (result doc : JsVal) (s1 s2 : Store) (c1 c2 : Caller) :
  redisClient w = Some client ->
  client_get client key (store w) = (Normal r, s1) ->
  truthy (js_of_nullable r) = false ->
  fallback (caller w) = (FbValue v, c1) ->
  client_json_get client key options (store w) = (Normal result, s2) ->
  truthy result = false ->
  jsonFallback (caller w) = (FbValue doc, c2) ->
  get key fallback
    (Some {| get_ttl := seconds; resetIfNotFound := Some false;
             bypassFallbackIfNotFound := None |}) w =
    (Fulfilled (js_of_optional v),
     {| redisClient := Some client; store := s1; caller := c1;
        trace := trace w ++ [EvStore (CallGet key) None; EvFallback];
        logs := logs w |}) /\
  jsonGet key jsonFallback options
    (Some {| json_ttl := seconds; json_resetIfNotFound := Some false |}) w =
    (Fulfilled doc,
     {| redisClient := Some client; store := s2; caller := c2;
        trace := trace w ++ [EvStore (CallJsonGet key options) None; EvFallback];
        logs := logs w |}).
Proof.
  intros Hclient Hget Hmiss Hfb Hjson Hjmiss Hjfb.
  unfold get, jsonGet. unfold_combinators.
  rewrite Hclient. simpl. rewrite Hget, Hjson. simpl.
  rewrite Hmiss, Hjmiss. simpl. rewrite Hfb, Hjfb. simpl.
  rewrite <- !app_assoc. simpl. split; reflexivity.
Qed.

(** X11. In [hGet] and [hGetAll] a fallback whose promise rejects is invoked
    at most once, and when it is invoked its rejection reaches the caller
    unchanged, whatever the client does. *)
Theorem hash_reads_pass_rejection_on (op : Operation) (fallback : Fallback JsVal)
    (w : World) (e : JsError) (c' : Caller) :
  (exists key field seconds, op = OpHGet key field fallback seconds) \/
  (exists key seconds, op = OpHGetAll key fallback seconds) ->
  fallback (caller w) = (FbRejects e, c') ->
  (fallback_count (events_since w (snd (exec op w))) = 0%nat /\
   exists v, fst (exec op w) = Fulfilled v) \/
  (fallback_count (events_since w (snd (exec op w))) = 1%nat /\
   fst (exec op w) = Rejected e).
Proof.
  intros [(key & field & seconds & ->)|(key & seconds & ->)] Hfb;
    unfold_service; split_outcomes; read_events; simpl;
    try (exfalso; congruence);
    first [ left; split; [reflexivity|eauto; fail]
          | right; split; [reflexivity|congruence] ].
Qed.

(** X12. Whatever the client does, an operation during which a store call
    threw leaves an error entry in the log. *)
Theorem store_failure_is_logged (op : Operation) (w : World) :
  existsb is_store_failure (events_since w (snd (exec op w))) = true ->
  existsb is_error_entry (logs_since w (snd (exec op w))) = true.
Proof.
  destruct op; unfold_service; split_outcomes; read_events; read_logs; simpl;
    intros Hthrew; try discriminate; auto.
Qed.

(** X13. With a null handle every operation logs one warning and nothing
    else. *)
Theorem unavailable_store_warns (op : Operation) (w : World) :
  redisClient w = None ->
  exists message, logs_since w (snd (exec op w)) = [LogWarn message].
Proof.
  intros Hnull.
  destruct op; unfold_service; rewrite Hnull; split_outcomes; read_logs; eauto.
Qed.

(** ** The helpers of isEmpty.ts *)


(** ** The connection bootstrap *)

(** X15. [initializeRedis] never rejects and touches neither the trace nor
    the caller.  Afterwards the handle is what it was when Redis is disabled
    in the configuration, the client created for the configured options when
    the connection succeeded, and null when the connection failed, also when
    a client was connected before. *)
Theorem initializeRedis_handle (config : Bootstrap.RedisConfig)
    (driver : RedisDriver) (w : World) :
  fst (initializeRedis config driver w) = Fulfilled tt /\
  trace (snd (initializeRedis config driver w)) = trace w /\
  caller (snd (initializeRedis config driver w)) = caller w /\
  redisClient (snd (initializeRedis config driver w)) =
    if Bootstrap.enable config then
      match fst (Bootstrap.connect driver (Bootstrap.client_options config) (store w)) with
      | Normal _ => Some (Bootstrap.createClient driver (Bootstrap.client_options config))
      | Abrupt _ => None
      end
    else redisClient w.
Proof.
  unfold Bootstrap.initializeRedis, Bootstrap.assign, Bootstrap.client_connect.
  unfold_combinators.
  destruct (Bootstrap.enable config); simpl; [|auto].
  destruct (Bootstrap.connect driver (Bootstrap.client_options config) (store w))
    as [[[]|e] s']; simpl; auto.
Qed.

(** X16. After an [initializeRedis] whose connection failed, the failure is
    in the log and every operation runs degraded: no store method is called,
    reads settle as the fallback does and writes resolve to [false]. *)
Theorem failed_connection_degrades (config : Bootstrap.RedisConfig)
    (driver : RedisDriver) (op : Operation) (w : World) (e : JsError) (s' : Store) :
  Bootstrap.enable config = true ->
  Bootstrap.connect driver (Bootstrap.client_options config) (store w)
    = (Abrupt e, s') ->
  let booted := snd (initializeRedis config driver w) in
  logs booted = logs w ++ [LogError "Redis connection error:" (Some e)] /\
  store_calls (events_since booted (snd (exec op booted))) = [] /\
  match kind_of op with
  | Read fallback => fst (exec op booted) = settle (fst (fallback (caller w)))
  | Write => fst (exec op booted) = Fulfilled (JBool false)
  | Delete => True
  end.
Proof.
  intros Henable Hconnect booted. subst booted.
  unfold Bootstrap.initializeRedis, Bootstrap.assign, Bootstrap.client_connect.
  unfold_combinators. rewrite Henable. simpl. rewrite Hconnect. simpl.
  split; [reflexivity|].
  destruct op; unfold_service; simpl;
    try (destruct (fallback (caller w)) as [[v|e'|e'] c'] eqn:Hfb; simpl);
    read_events; unfold fallback_js; rewrite ?Hfb; simpl; auto.
Qed.

(** X17. After an [initializeRedis] whose connection succeeded, the service
    talks to the client created for the configured options: [set] calls that
    client's [set] on the store the connection left and answers [true]
    exactly when the call did not throw. *)
Theorem connected_client_serves (config : Bootstrap.RedisConfig)
    (driver : RedisDriver) (key value : string) (w : World) (s' : Store) :
  Bootstrap.enable config = true ->
  Bootstrap.connect driver (Bootstrap.client_options config) (store w)
    = (Normal tt, s') ->
  let booted := snd (initializeRedis config driver w) in
  let client := Bootstrap.createClient driver (Bootstrap.client_options config) in
  events_since booted (snd (set key value None booted)) =
    [EvStore (CallSet key value) (failure_of (fst (client_set client key value s')))] /\
  fst (set key value None booted) =
    Fulfilled (bool_decide (failure_of (fst (client_set client key value s')) = None)) /\
  store (snd (set key value None booted)) = snd (client_set client key value s').
Proof.
  intros Henable Hconnect booted client. subst booted client.
  unfold Bootstrap.initializeRedis, Bootstrap.assign, Bootstrap.client_connect.
  unfold set. unfold_combinators. rewrite Henable. simpl. rewrite Hconnect. simpl.
  destruct (client_set _ key value s') as [[[]|e] s'']; simpl; read_events; auto.
Qed.

(** X18. The credentials reach [createClient] exactly when the configuration
    has both a user name and a password and neither is the empty string: a
    password alone, or a user name alone, is dropped. *)
Theorem credentials_need_both (config : Bootstrap.RedisConfig) (u p : string) :
  Bootstrap.auth (Bootstrap.client_options config) = Some (u, p) <->
  Bootstrap.username config = Some u /\ Bootstrap.password config = Some p /\
  u <> "" /\ p <> "".
Proof.
  unfold Bootstrap.client_options. simpl.
  destruct (Bootstrap.username config) as [u'|], (Bootstrap.password config) as [p'|];
    simpl; rewrite ?andb_false_r; try (split; [discriminate|intros (H & _); discriminate H];fail);
    try (split; [discriminate|intros (_ & H & _); discriminate H]; fail).
  destruct (String.eqb_spec p' ""), (String.eqb_spec u' ""); simpl; split;
    try discriminate; try (intros [= -> ->]; auto; fail);
    intros (Hu & Hp & Hue & Hpe); injection Hu as ->; injection Hp as ->;
    congruence.
Qed.

End Properties.

(** * The service on the in-memory client *)

Section Scenarios.

Import Memory.
Import Scenario.

(** C3. [get("k", fallback, {ttl: 100})] on a store where [k] holds ["v"]
    with 5 seconds to live resolves to ["v"] and does not invoke the
    fallback, but the read is its only store call: no [expire] is issued and
    the key keeps its 5 seconds. *)
Theorem get_hit_does_not_refresh_expiry :
  let after := get "k" (constant (Some "fresh")) (with_ttl 100) (connected store_k_v) in
  fst after = Fulfilled (JStr "v") /\
  trace (snd after) = [EvStore (CallGet "k") None] /\
  existsb is_expire_event (trace (snd after)) = false /\
  expiry (store (snd after)) !! "k" = Some 5.
Proof. vm_compute. repeat split; reflexivity. Qed.

(** C4. [hGet("h", "f", fallback, 10)] on a hash without the field [f]
    resolves to the fallback's value, yet [expire("h", 10)] was issued right
    after the read that found nothing, and the key now expires in 10
    seconds. *)
Theorem hGet_absent_field_still_expires :
  let after := hGet "h" "f" (constant (JStr "Y")) (Some 10) (connected store_h_g) in
  mem_hGet "h" "f" store_h_g = (None, store_h_g) /\
  fst after = Fulfilled (JStr "Y") /\
  trace (snd after) =
    [EvStore (CallHGet "h" "f") None; EvStore (CallExpire "h" 10) None; EvFallback] /\
  expiry (store (snd after)) !! "h" = Some 10.
Proof. vm_compute. repeat split; reflexivity. Qed.

(** C6, as stated, fails: on a miss with [bypassFallbackIfNotFound] true and
    [resetIfNotFound] true, [get] invokes the fallback and resolves to its
    value, not to the miss value. *)
Lemma get_bypass_with_reset_invokes_fallback :
  mem_get "k" empty = (None, empty) /\
  fst (get "k" (constant (Some "X")) (bypass_with (Some true)) (connected empty))
    = Fulfilled (JStr "X") /\
  fallback_count
    (trace (snd (get "k" (constant (Some "X")) (bypass_with (Some true))
                   (connected empty)))) = 1%nat /\
  ~ (fst (get "k" (constant (Some "X")) (bypass_with (Some true)) (connected empty))
       = Fulfilled JNull /\
     fallback_count
       (trace (snd (get "k" (constant (Some "X")) (bypass_with (Some true))
                      (connected empty)))) = 0%nat).
Proof.
  vm_compute. repeat split; try reflexivity.
  intros [H _]. discriminate H.
Qed.

(** The same happens when [resetIfNotFound] is omitted and so defaults to
    true. *)
Lemma get_bypass_with_default_reset_invokes_fallback :
  fst (get "k" (constant (Some "X")) (bypass_with None) (connected empty))
    = Fulfilled (JStr "X") /\
  fallback_count
    (trace (snd (get "k" (constant (Some "X")) (bypass_with None)
                   (connected empty)))) = 1%nat.
Proof. vm_compute. split; reflexivity. Qed.

(** C8, as stated, fails: with a null handle [hDel] resolves to [false]. *)
Lemma hDel_unavailable_is_false :
  fst (hDel "h" (OneField "f") (unavailable empty)) = Fulfilled false /\
  fst (hDel "h" (OneField "f") (unavailable empty)) <> Fulfilled true.
Proof. vm_compute. split; [reflexivity|discriminate]. Qed.

(** C9. On a miss of [get] whose fallback rejects, the rejection is caught
    by the [try] around the store read and the fallback is invoked a second
    time from the handler: a fallback that fails once is answered with the
    value of its second invocation, and one that always fails is invoked
    twice before the caller sees the rejection. *)
Theorem get_catches_fallback_failure :
  let once := get "k" fails_once None (connected empty) in
  let always := get "k" always_fails None (connected empty) in
  fst once = Fulfilled (JStr "X") /\
  fallback_count (trace (snd once)) = 2%nat /\
  existsb is_store_failure (trace (snd once)) = false /\
  fst always = Rejected (MkError "database offline") /\
  fallback_count (trace (snd always)) = 2%nat.
Proof. vm_compute. repeat split; reflexivity. Qed.

(** ** The general theorems at concrete inputs *)

(** C1 at [get("k", () => "X")] with a null handle: the caller gets ["X"]
    and the store, which holds [k], is not asked. *)
Lemma unavailable_store_degrades_witness :
  redisClient (unavailable store_k_v) = None /\
  fst (exec (OpGet "k" (constant (Some "X")) None) (unavailable store_k_v))
    = Fulfilled (JStr "X") /\
  store_calls
    (events_since (unavailable store_k_v)
       (snd (exec (OpGet "k" (constant (Some "X")) None) (unavailable store_k_v)))) = [].
Proof.
  split; [reflexivity|].
  destruct (unavailable_store_degrades (OpGet "k" (constant (Some "X")) None)
              (unavailable store_k_v) eq_refl) as (_ & Hcalls & Hresult & _).
  split; [exact Hresult | exact Hcalls].
Defined.

(** C2 at [hGetAll("h", () => "Y", 10)] where the read succeeds and the
    [expire] that follows throws: the caller gets the fallback's ["Y"]. *)
Lemma store_errors_never_raise_witness :
  existsb is_store_failure
    (events_since (connected (failing [false; true] store_h_g))
       (snd (exec (OpHGetAll "h" (constant (JStr "Y")) (Some 10))
               (connected (failing [false; true] store_h_g))))) = true /\
  fst (exec (OpHGetAll "h" (constant (JStr "Y")) (Some 10))
         (connected (failing [false; true] store_h_g))) = Fulfilled (JStr "Y").
Proof.
  split; [vm_compute; reflexivity|].
  destruct (store_errors_never_raise (OpHGetAll "h" (constant (JStr "Y")) (Some 10))
              (connected (failing [false; true] store_h_g)))
    as [_ Hresult]; [vm_compute; reflexivity|].
  exact Hresult.
Defined.

(** C5 at [get("k", () => "X")] on an empty store: the caller gets ["X"] and
    a raw read of [k] afterwards finds ["X"]. *)
Lemma get_miss_populates_witness :
  client_get client "k" empty = (Normal None, empty) /\
  fst (get "k" (constant (Some "X")) None (connected empty)) = Fulfilled (JStr "X") /\
  strings (store (snd (get "k" (constant (Some "X")) None (connected empty)))) !! "k"
    = Some "X".
Proof.
  split; [reflexivity|].
  pose proof (get_miss_populates client "k" (constant (Some "X")) None
                (connected empty) None (Some "X") empty 1%nat
                eq_refl eq_refl eq_refl eq_refl eq_refl) as Hget.
  cbv zeta in Hget. rewrite Hget. split; [reflexivity|vm_compute; reflexivity].
Defined.

(** C6, amended, at [get("k", fallback, {resetIfNotFound: false,
    bypassFallbackIfNotFound: true})] on an empty store: the caller gets
    [null] and the fallback is not invoked. *)
Lemma get_bypass_without_reset_witness :
  client_get client "k" empty = (Normal None, empty) /\
  fst (get "k" (constant (Some "X")) (bypass_with (Some false)) (connected empty))
    = Fulfilled JNull /\
  fallback_count
    (trace (snd (get "k" (constant (Some "X")) (bypass_with (Some false))
                   (connected empty)))) = 0%nat.
Proof.
  split; [reflexivity|].
  rewrite (get_bypass_without_reset client "k" (constant (Some "X"))
             (bypass_with (Some false)) (connected empty) None empty
             eq_refl eq_refl eq_refl eq_refl eq_refl).
  split; reflexivity.
Defined.

(** C7 at a read of the path [$.c] of the document [{"a": 1, "b": 2}]: the
    caller gets the fallback's [{"a": 1}], which replaces the whole
    document. *)
Lemma jsonGet_miss_writes_root_witness :
  client_json_get client "doc" (at_path "$.c") store_doc = (Normal JNull, store_doc) /\
  fst (jsonGet "doc" (constant (JObj [("a", JNum 1)])) (at_path "$.c") None
         (connected store_doc)) = Fulfilled (JObj [("a", JNum 1)]) /\
  documents
    (store (snd (jsonGet "doc" (constant (JObj [("a", JNum 1)])) (at_path "$.c") None
                   (connected store_doc)))) !! "doc" = Some (JObj [("a", JNum 1)]).
Proof.
  split; [reflexivity|].
  destruct (jsonGet_miss_writes_root client "doc" (constant (JObj [("a", JNum 1)]))
              (at_path "$.c") None (connected store_doc) (JObj [("a", JNum 1)])
              store_doc 1%nat eq_refl eq_refl eq_refl eq_refl) as [Hget _].
  rewrite Hget. split; [reflexivity|vm_compute; reflexivity].
Defined.

(** C8, amended, at [del("k")] and [hDel("h", "f")] with a null handle. *)
Lemma unavailable_store_deletes_witness :
  redisClient (unavailable store_k_v) = None /\
  fst (del "k" (unavailable store_k_v)) = Fulfilled true /\
  fst (hDel "h" (OneField "f") (unavailable store_k_v)) = Fulfilled false.
Proof.
  split; [reflexivity|].
  destruct (unavailable_store_deletes "k" "h" (OneField "f") (unavailable store_k_v)
              eq_refl) as (Hdel & _ & _ & HhDel & _).
  split; [exact Hdel | exact HhDel].
Defined.

(** C10 at the key [k] of an empty store. *)
Lemma ttl_zero_disagreement_witness :
  trace (snd (set "k" "v" (Some {| ttl := Some 0 |}) (connected empty))) =
    [EvStore (CallSet "k" "v") None; EvStore (CallExpire "k" 0) None] /\
  trace (snd (hSet "k" [("f", HStr "v")] (Some 0) (connected empty))) =
    [EvStore (CallHSet "k" [("f", HStr "v")]) None] /\
  trace (snd (jsonSet "k" "$" (JStr "v") (Some {| ttl := Some 0 |}) (connected empty))) =
    [EvStore (CallJsonSet "k" "$" (JStr "v")) None].
Proof.
  destruct (ttl_zero_disagreement client "k" "v" "$" [("f", HStr "v")] (JStr "v")
              (connected empty) _ _ _ eq_refl eq_refl eq_refl eq_refl)
    as (Hset & HhSet & Hjson).
  split; [exact Hset | split; [exact HhSet | exact Hjson]].
Defined.

(** ** The further properties at concrete inputs *)

Import Cases.

(** X1 at [del("k")] with the client's [del] throwing. *)
Lemma boolean_result_tracks_store_witness :
  redisClient (connected (failing [true] store_k_v)) = Some client /\
  fst (exec (OpDel "k") (connected (failing [true] store_k_v)))
    = Fulfilled (JBool false).
Proof.
  split; [reflexivity|].
  exact (boolean_result_tracks_store client (OpDel "k")
           (connected (failing [true] store_k_v)) eq_refl).
Defined.

(** X2 at [set("k", "v", {ttl: 10})] on an empty store. *)
Lemma write_then_expire_witness :
  events_since (connected empty)
    (snd (exec (OpSet "k" "v" (ttl_of 10)) (connected empty))) =
    [EvStore (CallSet "k" "v") None; EvStore (CallExpire "k" 10) None] /\
  write_shape (CallSet "k" "v", "k", Some 10)
    (events_since (connected empty)
       (snd (exec (OpSet "k" "v" (ttl_of 10)) (connected empty)))).
Proof.
  split; [reflexivity|].
  exact (write_then_expire (OpSet "k" "v" (ttl_of 10)) (connected empty)
           (CallSet "k" "v", "k", Some 10) eq_refl).
Defined.



(** X5 at [hGetAll("h", fallback, -1)] on the hash [{g: "1"}]: the hash is
    returned and its expiry is left alone. *)
Lemma hGetAll_hit_witness :
  fst (hGetAll "h" (constant (JStr "Y")) (Some (-1)) (connected store_h_g))
    = Fulfilled (JObj [("g", JStr "1")]) /\
  trace (snd (hGetAll "h" (constant (JStr "Y")) (Some (-1)) (connected store_h_g))) =
    [EvStore (CallHGetAll "h") None].
Proof.
  exact (hGetAll_hit client "h" (constant (JStr "Y")) (Some (-1))
           (connected store_h_g) [("g", "1")] store_h_g eq_refl eq_refl
           ltac:(discriminate) eq_refl).
Defined.

(** X7 at [get("k", () => "X", {resetIfNotFound: false})] on an empty store:
    the key is still absent afterwards. *)
Lemma reads_without_reset_never_write_witness :
  populates (OpGet "k" (constant (Some "X")) (no_reset None)) = false /\
  existsb is_write_call
    (events_since (connected empty)
       (snd (exec (OpGet "k" (constant (Some "X")) (no_reset None))
               (connected empty)))) = false /\
  strings
    (store (snd (exec (OpGet "k" (constant (Some "X")) (no_reset None))
                   (connected empty)))) !! "k" = None.
Proof.
  split; [reflexivity|]. split; [|vm_compute; reflexivity].
  exact (reads_without_reset_never_write
           (OpGet "k" (constant (Some "X")) (no_reset None)) (connected empty)
           eq_refl).
Defined.

(** X8 at [jsonGet("doc", fallback, undefined, {ttl: 10})] on the document
    [{"a": 1, "b": 2}]. *)
Lemma jsonGet_hit_witness :
  fst (jsonGet "doc" (constant JNull) None (json_ttl_of 10) (connected store_doc))
    = Fulfilled (JObj [("a", JNum 1); ("b", JNum 2)]) /\
  trace (snd (jsonGet "doc" (constant JNull) None (json_ttl_of 10)
                (connected store_doc))) =
    [EvStore (CallJsonGet "doc" None) None; EvStore (CallExpire "doc" 10) None].
Proof.
  exact (jsonGet_hit client "doc" (constant JNull) None (json_ttl_of 10)
           (connected store_doc) (JObj [("a", JNum 1); ("b", JNum 2)]) store_doc
           eq_refl eq_refl eq_refl eq_refl).
Defined.

(** X9 at a document that is the number 0: the caller gets the fallback's
    [{"a": 1}] and the document is replaced by it. *)
Lemma jsonGet_falsy_document_is_overwritten_witness :
  client_json_get client "doc" None store_zero = (Normal (JNum 0), store_zero) /\
  fst (jsonGet "doc" (constant (JObj [("a", JNum 1)])) None None
         (connected store_zero)) = Fulfilled (JObj [("a", JNum 1)]) /\
  documents
    (store (snd (jsonGet "doc" (constant (JObj [("a", JNum 1)])) None None
                   (connected store_zero)))) !! "doc" = Some (JObj [("a", JNum 1)]).
Proof.
  split; [reflexivity|].
  destruct (jsonGet_falsy_document_is_overwritten client "doc"
              (constant (JObj [("a", JNum 1)])) None None (connected store_zero)
              (JNum 0) (JObj [("a", JNum 1)]) store_zero 1%nat
              eq_refl eq_refl ltac:(left; reflexivity) eq_refl eq_refl)
    as [Hresult _].
  split; [exact Hresult|vm_compute; reflexivity].
Defined.

(** X10 at the key [k] of an empty store with [ttl] 10. *)
Lemma miss_without_reset_only_reads_witness :
  fst (get "k" (constant (Some "X")) (no_reset (Some 10)) (connected empty))
    = Fulfilled (JStr "X") /\
  trace (snd (get "k" (constant (Some "X")) (no_reset (Some 10)) (connected empty)))
    = [EvStore (CallGet "k") None; EvFallback] /\
  fst (jsonGet "k" (constant (JStr "X")) None (json_no_reset (Some 10))
         (connected empty)) = Fulfilled (JStr "X") /\
  trace (snd (jsonGet "k" (constant (JStr "X")) None (json_no_reset (Some 10))
                (connected empty)))
    = [EvStore (CallJsonGet "k" None) None; EvFallback].
Proof.
  destruct (miss_without_reset_only_reads client "k" (constant (Some "X"))
              (constant (JStr "X")) (Some 10) None (connected empty)
              None (Some "X") JNull (JStr "X") empty empty 1%nat 1%nat
              eq_refl eq_refl eq_refl eq_refl eq_refl eq_refl eq_refl)
    as [Hget Hjson].
  unfold no_reset, json_no_reset. rewrite Hget, Hjson.
  repeat split.
Defined.

(** X11 at [hGet("h", "f", fallback)] on a hash without the field [f]. *)
Lemma hash_reads_pass_rejection_on_witness :
  rejecting (caller (connected store_h_g))
    = (FbRejects (MkError "database offline"), 1%nat) /\
  fst (exec (OpHGet "h" "f" rejecting None) (connected store_h_g))
    = Rejected (MkError "database offline").
Proof.
  split; [reflexivity|].
  destruct (hash_reads_pass_rejection_on (OpHGet "h" "f" rejecting None) rejecting
              (connected store_h_g) (MkError "database offline") 1%nat
              ltac:(left; eexists _, _, _; reflexivity) eq_refl)
    as [[Hcount _]|[_ Hresult]]; [discriminate Hcount|exact Hresult].
Defined.

(** X12 at [set("k", "v")] with the client's [set] throwing. *)
Lemma store_failure_is_logged_witness :
  logs (snd (exec (OpSet "k" "v" None) (connected (failing [true] empty)))) =
    [LogError "Error setting redis key" (Some (MkError "Socket closed unexpectedly"))] /\
  existsb is_error_entry
    (logs_since (connected (failing [true] empty))
       (snd (exec (OpSet "k" "v" None) (connected (failing [true] empty))))) = true.
Proof.
  split; [reflexivity|].
  exact (store_failure_is_logged (OpSet "k" "v" None)
           (connected (failing [true] empty)) eq_refl).
Defined.

(** X13 at [del("k")] with a null handle. *)
Lemma unavailable_store_warns_witness :
  redisClient (unavailable store_k_v) = None /\
  exists message,
    logs_since (unavailable store_k_v)
      (snd (exec (OpDel "k") (unavailable store_k_v))) = [LogWarn message].
Proof.
  split; [reflexivity|].
  exact (unavailable_store_warns (OpDel "k") (unavailable store_k_v) eq_refl).
Defined.

(** X16 at a connection that fails, followed by [get("k", () => "X")] on a
    store that holds [k]. *)
Lemma failed_connection_degrades_witness :
  Bootstrap.connect driver (Bootstrap.client_options config) (failing [true] store_k_v)
    = (Abrupt (MkError "Socket closed unexpectedly"), store_k_v) /\
  fst (exec (OpGet "k" (constant (Some "X")) None)
         (snd (Bootstrap.initializeRedis config driver
                 (connected (failing [true] store_k_v)))))
    = Fulfilled (JStr "X").
Proof.
  split; [reflexivity|].
  destruct (failed_connection_degrades config driver
              (OpGet "k" (constant (Some "X")) None)
              (connected (failing [true] store_k_v))
              (MkError "Socket closed unexpectedly") store_k_v eq_refl eq_refl)
    as (_ & _ & Hresult).
  exact Hresult.
Defined.

(** X17 at a connection that succeeds, followed by [set("k", "v")]. *)
Lemma connected_client_serves_witness :
  fst (set "k" "v" None
         (snd (Bootstrap.initializeRedis config driver (unavailable empty))))
    = Fulfilled true /\
  strings
    (store (snd (set "k" "v" None
                   (snd (Bootstrap.initializeRedis config driver (unavailable empty))))))
    !! "k" = Some "v".
Proof.
  destruct (connected_client_serves config driver "k" "v" (unavailable empty) empty
              eq_refl eq_refl) as (_ & Hresult & Hstore).
  split; [exact Hresult|]. cbv zeta in Hstore. rewrite Hstore. vm_compute. reflexivity.
Defined.

End Scenarios.
